(** * Label resolution of the ECS provider (provider/ecs/config.go)

    A shallow embedding of the template functions of the ECS provider:
    typed label accessors, first-instance accessors, presence predicates,
    the frontend filter and the host/port derivation, together with the
    properties stated about them.

    Go values are modelled as follows.
    - [string] is a byte string, as in Go.
    - [int], [int64] are [Z]; the only integers produced are parsed ones,
      and the parsers check the range themselves.
    - [map[string]*string] is [gmap string (option string)]: a key may be
      absent, present with a nil pointer, or present with a string.
    - [[]string] results are [option (list string)], [None] being the nil
      slice; argument slices are lists (only [len] and indexing are used).
    - A run-time panic (index out of range, nil dereference) is the
      [Panic] outcome of [result]. *)

From stdpp Require Import gmap strings list.
From Stdlib Require Import ZArith Ascii String DecimalString DecimalPos.

Local Open Scope string_scope.
Local Open Scope Z_scope.

(** ** Outcomes of Go calls that may panic *)

Inductive panic : Set :=
  | IndexOutOfRange
  | NilDereference.

Inductive result (A : Type) : Type :=
  | Ok (a : A)
  | Panic (p : panic).

Arguments Ok {A} a.
Arguments Panic {A} p.

Definition bind {A B} (r : result A) (k : A -> result B) : result B :=
  match r with
  | Ok a => k a
  | Panic p => Panic p
  end.

(** Pointer dereference [*p] and slice indexing [xs[n]]. *)
Definition deref {A} (p : option A) : result A :=
  match p with
  | Some a => Ok a
  | None => Panic NilDereference
  end.

Definition index {A} (xs : list A) (n : nat) : result A :=
  match xs !! n with
  | Some a => Ok a
  | None => Panic IndexOutOfRange
  end.

(** [len] of a slice and of a string, a Go [int]. *)
Definition len {A} (xs : list A) : Z := Z.of_nat (List.length xs).

Definition len_string (s : string) : Z := Z.of_nat (String.length s).

(** ** The instance record

    The fields of [ecsInstance] that config.go reads:
    [i.Name], [i.containerDefinition.DockerLabels],
    [i.machine.PrivateIpAddress] and [i.container.NetworkBindings], each
    binding with its [HostPort].  The pointers [containerDefinition],
    [machine], [container] and the binding pointers themselves are taken
    to be non-nil. *)

Record NetworkBinding : Type := {
  HostPort : option Z
}.

Record ecsInstance : Type := {
  Name : string;
  DockerLabels : gmap string (option string);
  PrivateIpAddress : option string;
  NetworkBindings : list NetworkBinding
}.

Record Provider : Type := {
  Domain : string
}.

(** ** strconv *)

Module strconv.

Inductive num_error : Set :=
  | ErrSyntax
  | ErrRange.

(** [ParseBool]: the twelve accepted tokens, anything else is an error. *)
Definition ParseBool (str : string) : option bool :=
  if bool_decide (str ∈ ["1"; "t"; "T"; "true"; "TRUE"; "True"]) then Some true
  else if bool_decide (str ∈ ["0"; "f"; "F"; "false"; "FALSE"; "False"]) then Some false
  else None.

Definition maxUint64 : Z := 2 ^ 64 - 1.

(** uint64 arithmetic wraps. *)
Definition u64 (z : Z) : Z := z mod 2 ^ 64.

Definition is_digit (c : ascii) : bool :=
  let n := Z.of_N (N_of_ascii c) in (48 <=? n) && (n <=? 57).

Definition digit_val (c : ascii) : Z := Z.of_N (N_of_ascii c) - 48.

(** The digit loop of [ParseUint] for base 10: [n] is the accumulator,
    [cutoff = maxUint64/10 + 1], [maxVal = 1<<bitSize - 1]. *)
Fixpoint ParseUint_loop (maxVal : Z) (s : string) (n : Z) : Z + num_error :=
  match s with
  | EmptyString => inl n
  | String d s' =>
      if negb (is_digit d) then inr ErrSyntax
      else if maxUint64 / 10 + 1 <=? n then inr ErrRange
      else
        let n := u64 (n * 10) in
        let n1 := u64 (n + digit_val d) in
        if (n1 <? n) || (maxVal <? n1) then inr ErrRange
        else ParseUint_loop maxVal s' n1
  end.

(** [ParseUint(s, 10, bitSize)] with [bitSize] already resolved. *)
Definition ParseUint10 (s : string) (bitSize : Z) : Z + num_error :=
  match s with
  | EmptyString => inr ErrSyntax
  | _ => ParseUint_loop (u64 (Z.shiftl 1 bitSize - 1)) s 0
  end.

(** [ParseInt(s, 10, bitSize)], [bitSize] being 32 or 64: an optional
    sign, then [ParseUint]; a magnitude outside the signed range is a
    range error.  [None] stands for [err != nil]. *)
Definition ParseInt10 (s : string) (bitSize : Z) : option Z :=
  match s with
  | EmptyString => None
  | String c s' =>
      let neg := bool_decide (c = "-"%char) in
      let s1 := if bool_decide (c = "+"%char) || neg then s' else s in
      match ParseUint10 s1 bitSize with
      | inr ErrSyntax => None
      | inr ErrRange => None
      | inl un =>
          let cutoff := u64 (Z.shiftl 1 (bitSize - 1)) in
          if negb neg && (cutoff <=? un) then None
          else if neg && (cutoff <? un) then None
          else Some (if neg then - un else un)
      end
  end.

(** [FormatInt(i, 10)]. *)
Definition FormatInt10 (i : Z) : string := NilZero.string_of_int (Z.to_int i).

End strconv.

(** ** strings *)

Module strings.

Fixpoint map_bytes (f : ascii -> ascii) (s : string) : string :=
  match s with
  | EmptyString => EmptyString
  | String c s' => String (f c) (map_bytes f s')
  end.

Fixpoint all_bytes (f : ascii -> bool) (s : string) : bool :=
  match s with
  | EmptyString => true
  | String c s' => f c && all_bytes f s'
  end.

(** [Replace(s, old, new, -1)] for a non-empty [old]: scanning from the
    left, every non-overlapping occurrence of [old] becomes [new].
    [skip] counts the bytes of a matched [old] still to be dropped. *)
Fixpoint Replace_from (old new : string) (skip : nat) (s : string) : string :=
  match s with
  | EmptyString => EmptyString
  | String c s' =>
      match skip with
      | S k => Replace_from old new k s'
      | O =>
          if String.prefix old s
          then new +:+ Replace_from old new (Nat.pred (String.length old)) s'
          else String c (Replace_from old new O s')
      end
  end.

Definition Replace_all (s old new : string) : string := Replace_from old new O s.

(** A byte below [utf8.RuneSelf]. *)
Definition is_ascii (c : ascii) : bool := (N_of_ascii c <? 128)%N.

Definition is_upper (c : ascii) : bool :=
  ((65 <=? N_of_ascii c) && (N_of_ascii c <=? 90))%N.

(** [c += 'a' - 'A'] on an upper-case letter. *)
Definition lower_byte (c : ascii) : ascii :=
  if is_upper c then ascii_of_N (N_of_ascii c + 32) else c.

Section ToLower.

(** [Map(unicode.ToLower, s)], which Go applies to a string holding a
    byte outside ASCII. *)
Variable MapUnicodeToLower : string -> string.

Definition ToLower (s : string) : string :=
  if all_bytes is_ascii s then map_bytes lower_byte s
  else MapUnicodeToLower s.

End ToLower.

End strings.

(** ** github.com/BurntSushi/ty/fun *)

(** [fun.Filter(p, xs)] calls [p] on the elements from left to right and
    collects those it accepts.  The predicate may read and write a captured
    variable; [st] is that variable. *)
Fixpoint Filter {St A : Type} (p : A -> St -> bool * St) (xs : list A) (st : St)
  : list A * St :=
  match xs with
  | [] => ([], st)
  | x :: xs' =>
      let '(keep, st1) := p x st in
      let '(ys, st2) := Filter p xs' st1 in
      (if keep then x :: ys else ys, st2)
  end.

Notation "x <- e ;; k" := (bind e (fun x => k))
  (at level 100, e at next level, right associativity).

Definition MaxInt64 : Z := 2 ^ 63 - 1.

(** ** Sample instances

    Concrete inputs on which the properties below are exercised. *)

Module Samples.

Definition instance (name : string) (labels : list (string * option string))
    (address : option string) (hostPorts : list Z) : ecsInstance :=
  {| Name := name;
     DockerLabels := list_to_map labels;
     PrivateIpAddress := address;
     NetworkBindings := (fun p => {| HostPort := Some p |}) <$> hostPorts |}.

(** The instance of the specification's end-to-end example: no label,
    address 10.0.0.5, container port 80 bound to host port 32768. *)
Definition web : ecsInstance :=
  instance "web" [] (Some "10.0.0.5") [32768].

Definition my_service : ecsInstance :=
  instance "My_Service" [] (Some "10.0.0.6") [32769].

Definition sticky : ecsInstance :=
  instance "web" [("traefik.backend.loadbalancer.stickiness", Some "true")]
    (Some "10.0.0.7") [32770].

(** A health-check port that is neither a number nor a boolean. *)
Definition malformed : ecsInstance :=
  instance "api" [("traefik.backend.healthcheck.port", Some "12x")]
    (Some "10.0.0.8") [32771].

Definition labelled_port : ecsInstance :=
  instance "api" [("traefik.port", Some "8080")] (Some "10.0.0.9") [].


(** No port label and no port binding. *)
Definition unroutable : ecsInstance :=
  instance "db" [] (Some "10.0.0.11") [].

(** One more than [math.MaxInt64]. *)
Definition maxconn_overflow : ecsInstance :=
  instance "api" [("traefik.backend.maxconn.amount", Some "9223372036854775808")]
    (Some "10.0.0.12") [32774].

Definition only_amount : ecsInstance :=
  instance "api" [("traefik.backend.maxconn.amount", Some "10")]
    (Some "10.0.0.13") [32775].

(** Switched off by its enable label. *)
Definition disabled : ecsInstance :=
  instance "batch" [("traefik.enable", Some "false")] (Some "10.0.0.16") [32778].

Definition amount_and_extractor : ecsInstance :=
  instance "api"
    [("traefik.backend.maxconn.amount", Some "10");
     ("traefik.backend.maxconn.extractorfunc", Some "client.ip")]
    (Some "10.0.0.14") [32776].

(** The extractor is present, but with an empty value. *)
Definition empty_extractor : ecsInstance :=
  instance "api"
    [("traefik.backend.maxconn.amount", Some "10");
     ("traefik.backend.maxconn.extractorfunc", Some "")]
    (Some "10.0.0.15") [32777].

End Samples.

(** ** Label accessors *)

Section Config.

Set Default Proof Using "Type".

(** Size of [int] in bits on the target platform ([strconv.IntSize]). *)
Variable IntSize : Z.

(** [strconv.Atoi(s)] is [ParseInt(s, 10, 0)], that is, at [IntSize]. *)
Definition Atoi (s : string) : option Z := strconv.ParseInt10 s IntSize.

(** [label.SplitAndTrimString], of package [label]. *)
Variable SplitAndTrimString : string -> string -> option (list string).

Definition getStringValue (i : ecsInstance) (labelName defaultValue : string) : string :=
  match DockerLabels i !! labelName with
  | Some v =>
      match v with
      | None => defaultValue
      | Some s => if bool_decide (len_string s = 0) then defaultValue else s
      end
  | None => defaultValue
  end.

Definition getBoolValue (i : ecsInstance) (labelName : string) (defaultValue : bool) : bool :=
  match DockerLabels i !! labelName with
  | Some (Some rawValue) =>
      match strconv.ParseBool rawValue with
      | Some v => v
      | None => defaultValue
      end
  | _ => defaultValue
  end.

Definition getIntValue (i : ecsInstance) (labelName : string) (defaultValue : Z) : Z :=
  match DockerLabels i !! labelName with
  | Some (Some rawValue) =>
      match Atoi rawValue with
      | Some v => v
      | None => defaultValue
      end
  | _ => defaultValue
  end.

Definition getInt64Value (i : ecsInstance) (labelName : string) (defaultValue : Z) : Z :=
  match DockerLabels i !! labelName with
  | Some (Some rawValue) =>
      match strconv.ParseInt10 rawValue 64 with
      | Some v => v
      | None => defaultValue
      end
  | _ => defaultValue
  end.

Definition getSliceString (i : ecsInstance) (labelName : string) : option (list string) :=
  match DockerLabels i !! labelName with
  | Some value =>
      match value with
      | None => None
      | Some s =>
          if bool_decide (len_string s = 0) then None
          else SplitAndTrimString s ","
      end
  | None => None
  end.

(** *** First-instance accessors *)

Definition hasFirst (instances : list ecsInstance) (labelName : string) : result bool :=
  if bool_decide (len instances > 0) then
    i <- index instances 0 ;;
    match DockerLabels i !! labelName with
    | Some v =>
        Ok (match v with
            | Some s => negb (bool_decide (len_string s = 0))
            | None => false
            end)
    | None => Ok false
    end
  else Ok false.

Definition getFirstStringValue (instances : list ecsInstance)
    (labelName defaultValue : string) : result string :=
  if bool_decide (len instances = 0) then Ok defaultValue
  else
    i <- index instances 0 ;;
    Ok (getStringValue i labelName defaultValue).

Definition getFuncStringValue (labelName defaultValue : string) (i : ecsInstance) : string :=
  getStringValue i labelName defaultValue.

Definition getFuncBoolValue (labelName : string) (defaultValue : bool) (i : ecsInstance) : bool :=
  getBoolValue i labelName defaultValue.

Definition getFuncSliceString (labelName : string) (i : ecsInstance) : option (list string) :=
  getSliceString i labelName.

Definition hasFuncFirst (labelName : string) (instances : list ecsInstance) : result bool :=
  hasFirst instances labelName.

Definition getFuncFirstStringValue (labelName defaultValue : string)
    (instances : list ecsInstance) : result string :=
  getFirstStringValue instances labelName defaultValue.

Definition getFuncFirstIntValue (labelName : string) (defaultValue : Z)
    (instances : list ecsInstance) : result Z :=
  if bool_decide (len instances < 0) then Ok defaultValue
  else
    i <- index instances 0 ;;
    Ok (getIntValue i labelName defaultValue).

Definition getFuncFirstInt64Value (labelName : string) (defaultValue : Z)
    (instances : list ecsInstance) : result Z :=
  if bool_decide (len instances < 0) then Ok defaultValue
  else
    i <- index instances 0 ;;
    Ok (getInt64Value i labelName defaultValue).

Definition getFuncFirstBoolValue (labelName : string) (defaultValue : bool)
    (instances : list ecsInstance) : result bool :=
  if bool_decide (len instances < 0) then Ok defaultValue
  else
    i <- index instances 0 ;;
    Ok (getBoolValue i labelName defaultValue).

(** *** Label names and defaults of package [label] *)

Variable TraefikFrontendRule : string.
Variable TraefikPort : string.
Variable TraefikBackendLoadBalancerMethod : string.
Variable TraefikBackendLoadBalancerSticky : string.
Variable TraefikBackendLoadBalancerStickiness : string.
Variable TraefikBackendLoadBalancerStickinessCookieName : string.
Variable TraefikBackendHealthCheckPath : string.
Variable TraefikBackendHealthCheckPort : string.
Variable TraefikBackendCircuitBreakerExpression : string.
Variable TraefikBackendMaxConnAmount : string.
Variable TraefikBackendMaxConnExtractorFunc : string.
Variable DefaultBackendHealthCheckPort : Z.

Variable MapUnicodeToLower : string -> string.

(** *** Template functions *)

Definition getFrontendRule (p : Provider) (i : ecsInstance) : string :=
  let defaultRule :=
    "Host:" +:+ strings.ToLower MapUnicodeToLower (strings.Replace_all (Name i) "_" "-")
      +:+ "." +:+ Domain p in
  getStringValue i TraefikFrontendRule defaultRule.

Definition getHost (i : ecsInstance) : result string :=
  deref (PrivateIpAddress i).

Definition getPort (i : ecsInstance) : result string :=
  let value := getStringValue i TraefikPort "" in
  if bool_decide (len_string value > 0) then Ok value
  else
    b <- index (NetworkBindings i) 0 ;;
    hostPort <- deref (HostPort b) ;;
    Ok (strconv.FormatInt10 hostPort).

(** The predicate of [filterFrontends]; [byName] is the captured set. *)
Definition notSeen (i : ecsInstance) (byName : gset string) : bool * gset string :=
  let found := bool_decide (Name i ∈ byName) in
  (negb found, if negb found then {[Name i]} ∪ byName else byName).

Definition filterFrontends (instances : list ecsInstance) : list ecsInstance :=
  fst (Filter notSeen instances ∅).

Definition hasLoadBalancerLabel (instances : list ecsInstance) : result bool :=
  method <- hasFirst instances TraefikBackendLoadBalancerMethod ;;
  sticky <- hasFirst instances TraefikBackendLoadBalancerSticky ;;
  stickiness <- hasFirst instances TraefikBackendLoadBalancerStickiness ;;
  cookieName <- hasFirst instances TraefikBackendLoadBalancerStickinessCookieName ;;
  Ok (method || sticky || stickiness || cookieName).

Definition hasMaxConnLabels (instances : list ecsInstance) : result bool :=
  mca <- hasFirst instances TraefikBackendMaxConnAmount ;;
  mcef <- hasFirst instances TraefikBackendMaxConnExtractorFunc ;;
  Ok (mca && mcef).

(** Entries of [ecsFuncMap]. *)
Definition hasStickinessLabel : list ecsInstance -> result bool :=
  getFuncFirstBoolValue TraefikBackendLoadBalancerStickiness false.

Definition hasHealthCheckLabels : list ecsInstance -> result bool :=
  hasFuncFirst TraefikBackendHealthCheckPath.

Definition getHealthCheckPath : list ecsInstance -> result string :=
  getFuncFirstStringValue TraefikBackendHealthCheckPath "".

Definition getHealthCheckPort : list ecsInstance -> result Z :=
  getFuncFirstIntValue TraefikBackendHealthCheckPort DefaultBackendHealthCheckPort.

Definition hasCircuitBreakerLabel : list ecsInstance -> result bool :=
  hasFuncFirst TraefikBackendCircuitBreakerExpression.

Definition getMaxConnAmount : list ecsInstance -> result Z :=
  getFuncFirstInt64Value TraefikBackendMaxConnAmount MaxInt64.

(** *** The remaining functions of config.go *)

Variable TraefikEnable : string.

Definition isEnabled (i : ecsInstance) (exposedByDefault : bool) : bool :=
  getBoolValue i TraefikEnable exposedByDefault.

(** The message of [log.Warnf] in [getSticky], its two [%s] verbs filled
    with the label names. *)
Definition deprecation_notice : string :=
  "Deprecated configuration found: " +:+ TraefikBackendLoadBalancerSticky
    +:+ ". Please use " +:+ TraefikBackendLoadBalancerStickiness +:+ ".".

(** [getSticky] writes to the log before it returns; the first component
    is what it logged at warning level. *)
Definition getSticky (instances : list ecsInstance) : list string * result string :=
  match hasFirst instances TraefikBackendLoadBalancerSticky with
  | Panic p => ([], Panic p)
  | Ok found =>
      (if found then [deprecation_notice] else [],
       getFirstStringValue instances TraefikBackendLoadBalancerSticky "false")
  end.

(** *** Specification vocabulary *)

(** The label [k] is unset on [i]: absent from the map, present with a
    nil value, or present with the empty string. *)
Definition label_unset (i : ecsInstance) (k : string) : Prop :=
  DockerLabels i !! k = None
  \/ DockerLabels i !! k = Some None
  \/ DockerLabels i !! k = Some (Some "").

(** The label [k] is set on [i] to the non-empty string [v]. *)
Definition label_set (i : ecsInstance) (k v : string) : Prop :=
  DockerLabels i !! k = Some (Some v) /\ v <> "".

(** The group has a first instance and [k] is set on it. *)
Definition set_on_first (instances : list ecsInstance) (k : string) : Prop :=
  exists i v, instances !! 0%nat = Some i /\ label_set i k v.

(** The element [x] at position [k] of [l] is the first of its name:
    no element before it has the same [Name]. *)
Definition first_of_its_name (l : list ecsInstance) (k : nat) (x : ecsInstance) : bool :=
  bool_decide (Name x ∉ Name <$> take k l).

(** [dedupeByName] as the specification words it: the subsequence of
    the elements that are the first occurrence of their name. *)
Definition dedupeByName (l : list ecsInstance) : list ecsInstance :=
  snd <$> List.filter (fun kx => first_of_its_name l (fst kx) (snd kx)) (imap pair l).

(** The tokens that denote a boolean. *)
Definition bool_tokens : list string :=
  ["1"; "t"; "T"; "true"; "TRUE"; "True"; "0"; "f"; "F"; "false"; "FALSE"; "False"].

(** The number written by a string of decimal digits, continuing from
    [acc]; [None] when a byte is not a digit. *)
Fixpoint digits_value (s : string) (acc : Z) : option Z :=
  match s with
  | EmptyString => Some acc
  | String d s' =>
      if strconv.is_digit d then digits_value s' (acc * 10 + strconv.digit_val d)
      else None
  end.

(** The integer written in base 10 by [s]: an optional sign followed by
    one or more decimal digits. *)
Definition base10 (s : string) : option Z :=
  match s with
  | EmptyString => None
  | String c s' =>
      let body := if bool_decide (c = "+"%char \/ c = "-"%char) then s' else s in
      match body with
      | EmptyString => None
      | _ =>
          match digits_value body 0 with
          | Some n => Some (if bool_decide (c = "-"%char) then - n else n)
          | None => None
          end
      end
  end.

(** [s] read as a base-10 signed integer of [bits] bits: the integer it
    writes, provided it lies in [-2^(bits-1), 2^(bits-1) - 1]. *)
Definition base10_int (bits : Z) (s : string) : option Z :=
  match base10 s with
  | Some z =>
      if bool_decide (- 2 ^ (bits - 1) <= z <= 2 ^ (bits - 1) - 1) then Some z else None
  | None => None
  end.

(** An underscore becomes a hyphen, other bytes stay. *)
Definition hyphenate (c : ascii) : ascii :=
  if bool_decide (c = "_"%char) then "-"%char else c.

(** The tokens [ParseBool] reads as true, and those it reads as false. *)
Definition true_tokens : list string := ["1"; "t"; "T"; "true"; "TRUE"; "True"].

Definition false_tokens : list string := ["0"; "f"; "F"; "false"; "FALSE"; "False"].

(** An ASCII byte that is neither an upper-case letter nor an underscore. *)
Definition host_byte (c : ascii) : bool :=
  strings.is_ascii c && negb (strings.is_upper c) && negb (bool_decide (c = "_"%char)).

(** [i] has a port of its own: a non-empty port label, or a first port
    binding with a host port. *)
Definition has_port (i : ecsInstance) (portLabel : string) : Prop :=
  (exists v, label_set i portLabel v)
  \/ (exists b bs hostPort, NetworkBindings i = b :: bs /\ HostPort b = Some hostPort).

(** ** Properties *)

Lemma len_string_zero (s : string) : len_string s = 0 <-> s = "".
Proof.
  unfold len_string. destruct s as [|c s]; simpl.
  - split; reflexivity.
  - split; [lia | discriminate].
Qed.

Lemma len_string_pos (s : string) : len_string s > 0 <-> s <> "".
Proof.
  unfold len_string. destruct s as [|c s]; simpl.
  - split; [lia | congruence].
  - split; [discriminate | lia].
Qed.

Lemma len_not_negative {A} (xs : list A) : ~ len xs < 0.
Proof. unfold len. lia. Qed.

Lemma label_unset_or_set (i : ecsInstance) (k : string) :
  label_unset i k \/ exists v, label_set i k v.
Proof.
  unfold label_unset, label_set.
  destruct (DockerLabels i !! k) as [[v|]|]; auto.
  destruct v as [|c v]; auto.
  right. exists (String c v). split; [reflexivity | discriminate].
Qed.

Lemma label_unset_not_set (i : ecsInstance) (k v : string) :
  label_unset i k -> ~ label_set i k v.
Proof.
  intros [H | [H | H]] [Hs Hv]; rewrite H in Hs; congruence.
Qed.

Lemma getStringValue_unset (i : ecsInstance) (k d : string) :
  label_unset i k -> getStringValue i k d = d.
Proof.
  unfold getStringValue. intros [H | [H | H]]; rewrite H; reflexivity.
Qed.

Lemma getStringValue_set (i : ecsInstance) (k v d : string) :
  label_set i k v -> getStringValue i k d = v.
Proof.
  unfold getStringValue. intros [H Hv]. rewrite H.
  rewrite bool_decide_eq_false_2; [reflexivity|].
  rewrite len_string_zero. exact Hv.
Qed.

Lemma getBoolValue_unset (i : ecsInstance) (k : string) (d : bool) :
  label_unset i k -> getBoolValue i k d = d.
Proof.
  unfold getBoolValue. intros [H | [H | H]]; rewrite H; reflexivity.
Qed.

Lemma getInt64Value_unset (i : ecsInstance) (k : string) (d : Z) :
  label_unset i k -> getInt64Value i k d = d.
Proof.
  unfold getInt64Value. intros [H | [H | H]]; rewrite H; reflexivity.
Qed.

(** *** The parsers against their specification *)

Lemma ParseBool_None (s : string) : strconv.ParseBool s = None <-> s ∉ bool_tokens.
Proof.
  unfold strconv.ParseBool, bool_tokens.
  case_bool_decide as Htrue.
  { split; [discriminate|]. intros Hn. exfalso. apply Hn.
    clear - Htrue. revert Htrue. rewrite !elem_of_cons, !elem_of_nil. tauto. }
  case_bool_decide as Hfalse.
  { split; [discriminate|]. intros Hn. exfalso. apply Hn.
    clear - Hfalse. revert Hfalse. rewrite !elem_of_cons, !elem_of_nil. tauto. }
  split; [intros _ | reflexivity].
  clear - Htrue Hfalse. revert Htrue Hfalse.
  rewrite !elem_of_cons, !elem_of_nil. tauto.
Qed.

Lemma digit_val_range (d : ascii) :
  strconv.is_digit d = true -> 0 <= strconv.digit_val d <= 9.
Proof.
  unfold strconv.is_digit, strconv.digit_val.
  intros [H1 H2]%andb_true_iff. lia.
Qed.

Lemma digits_value_ge (s : string) (acc v : Z) :
  0 <= acc -> digits_value s acc = Some v -> acc <= v.
Proof.
  revert acc. induction s as [|d s IH]; intros acc Hacc; cbn [digits_value].
  - intros [= ->]. lia.
  - destruct (strconv.is_digit d) eqn:Hd; [|discriminate].
    intros H. apply IH in H; pose proof (digit_val_range d Hd); lia.
Qed.

(** The digit loop returns the number written when it is at most
    [maxVal], a range error when it is larger, and an error when a byte is
    not a digit. *)
Lemma ParseUint_loop_spec (maxVal : Z) (s : string) (n : Z) :
  0 <= n <= maxVal -> maxVal <= strconv.maxUint64 ->
  match digits_value s n with
  | Some v =>
      strconv.ParseUint_loop maxVal s n
      = if bool_decide (v <= maxVal) then inl v else inr strconv.ErrRange
  | None => exists e, strconv.ParseUint_loop maxVal s n = inr e
  end.
Proof.
  unfold strconv.maxUint64. intros Hn Hmax. revert n Hn.
  induction s as [|d s IH]; intros n Hn; cbn [digits_value strconv.ParseUint_loop].
  - rewrite bool_decide_eq_true_2 by lia. reflexivity.
  - destruct (strconv.is_digit d) eqn:Hd; cbn [negb]; [|eauto].
    pose proof (digit_val_range d Hd) as Hdv.
    set (m := n * 10 + strconv.digit_val d).
    assert (Hover : maxVal < m ->
      match digits_value s m with
      | Some v => inr strconv.ErrRange
                  = (if bool_decide (v <= maxVal) then inl v else inr strconv.ErrRange)
      | None => exists e, @inr Z _ strconv.ErrRange = inr e
      end).
    { intros Hm. destruct (digits_value s m) as [v|] eqn:Hv; [|eauto].
      apply digits_value_ge in Hv; [|lia].
      rewrite bool_decide_eq_false_2 by lia. reflexivity. }
    unfold strconv.maxUint64, strconv.u64.
    destruct (Z.leb_spec ((2 ^ 64 - 1) / 10 + 1) n) as [Hcut | Hcut].
    { apply Hover. change ((2 ^ 64 - 1) / 10 + 1) with 1844674407370955162 in Hcut.
      unfold m. lia. }
    change ((2 ^ 64 - 1) / 10 + 1) with 1844674407370955162 in Hcut.
    rewrite (Z.mod_small (n * 10)) by lia. fold m.
    destruct (Z_lt_le_dec m (2 ^ 64)) as [Hsmall | Hwrap].
    + rewrite (Z.mod_small m) by (unfold m; lia).
      destruct (Z.ltb_spec m (n * 10)) as [Hlt | _]; [unfold m in Hlt; lia|].
      cbn [orb]. destruct (Z.ltb_spec maxVal m) as [Hgt | Hle].
      * apply Hover. exact Hgt.
      * apply IH. unfold m in *. lia.
    + assert (Em : m mod 2 ^ 64 = m - 2 ^ 64).
      { symmetry. apply (Z.mod_unique m (2 ^ 64) 1); unfold m in *; lia. }
      rewrite Em.
      destruct (Z.ltb_spec (m - 2 ^ 64) (n * 10)) as [_ | Hge]; [|unfold m in Hge; lia].
      cbn [orb]. apply Hover. lia.
Qed.

(** [ParseInt] at base 10 succeeds exactly on the base-10 integers of the
    requested size, and returns the integer written. *)
Lemma ParseInt10_spec (s : string) (bits : Z) :
  1 <= bits <= 64 -> strconv.ParseInt10 s bits = base10_int bits s.
Proof.
  intros Hbits.
  assert (Hpow : 2 ^ bits = 2 * 2 ^ (bits - 1)).
  { rewrite <- Z.pow_succ_r by lia. f_equal. lia. }
  assert (Hhalf : 1 <= 2 ^ (bits - 1) <= 2 ^ 63).
  { split; [apply (Z.pow_le_mono_r 2 0); lia | apply Z.pow_le_mono_r; lia]. }
  assert (Emax : strconv.u64 (Z.shiftl 1 bits - 1) = 2 ^ bits - 1).
  { rewrite Z.shiftl_1_l. apply Z.mod_small. lia. }
  assert (Ecut : strconv.u64 (Z.shiftl 1 (bits - 1)) = 2 ^ (bits - 1)).
  { rewrite Z.shiftl_1_l. apply Z.mod_small. lia. }
  unfold strconv.ParseInt10, base10_int, base10.
  destruct s as [|c s]; [reflexivity|].
  rewrite Ecut. cbv zeta.
  replace (bool_decide (c = "+"%char) || bool_decide (c = "-"%char))
    with (bool_decide (c = "+"%char \/ c = "-"%char))
    by (clear; repeat case_bool_decide; try reflexivity; tauto).
  set (body := if bool_decide (c = "+"%char \/ c = "-"%char) then s else String c s).
  destruct body as [|b body'] eqn:Ebody; [reflexivity|].
  unfold strconv.ParseUint10. rewrite Emax.
  pose proof (ParseUint_loop_spec (2 ^ bits - 1) (String b body') 0) as Hloop.
  destruct (digits_value (String b body') 0) as [v|] eqn:Hv.
  - rewrite Hloop by (unfold strconv.maxUint64; lia).
    apply digits_value_ge in Hv; [|lia].
    case_bool_decide as Hfit.
    + destruct (bool_decide (c = "-"%char)); cbn [negb andb].
      * destruct (Z.ltb_spec (2 ^ (bits - 1)) v).
        -- rewrite bool_decide_eq_false_2 by lia. reflexivity.
        -- rewrite bool_decide_eq_true_2 by lia. reflexivity.
      * destruct (Z.leb_spec (2 ^ (bits - 1)) v).
        -- rewrite bool_decide_eq_false_2 by lia. reflexivity.
        -- rewrite bool_decide_eq_true_2 by lia. reflexivity.
    + destruct (bool_decide (c = "-"%char));
        rewrite bool_decide_eq_false_2 by lia; reflexivity.
  - destruct Hloop as (e & ->); [lia | unfold strconv.maxUint64; lia|].
    destruct e; reflexivity.
Qed.

(** An index expression on a non-empty slice yields its head. *)
Lemma index_head {A} (x : A) (xs : list A) : index (x :: xs) 0 = Ok x.
Proof. reflexivity. Qed.

Lemma guard_never_taken {A B} (xs : list A) (a b : B) :
  (if bool_decide (len xs < 0) then a else b) = b.
Proof. rewrite bool_decide_eq_false_2; [reflexivity | apply len_not_negative]. Qed.

(** C1.  On the empty group the string accessor returns the default,
    but the int, int64 and bool accessors do not: their guard
    [len(instances) < 0] never holds, so they go on to index instance 0
    of an empty slice and panic. *)
Theorem first_accessors_on_empty_group (k : string) :
  (forall d, getFuncFirstStringValue k d [] = Ok d)
  /\ (forall d, getFuncFirstIntValue k d [] = Panic IndexOutOfRange)
  /\ (forall d, getFuncFirstInt64Value k d [] = Panic IndexOutOfRange)
  /\ (forall d, getFuncFirstBoolValue k d [] = Panic IndexOutOfRange).
Proof. repeat split. Qed.

(** C2.  When the key is absent from the label map, or present with a
    nil value, or present with the empty string, every typed accessor
    returns its default: string, bool, int and int64 return
    [defaultValue], and the string-list accessor returns the nil slice. *)
Theorem typed_accessors_default_when_unset (i : ecsInstance) (k : string) :
  label_unset i k ->
  (forall d, getStringValue i k d = d)
  /\ (forall d, getBoolValue i k d = d)
  /\ (forall d, getIntValue i k d = d)
  /\ (forall d, getInt64Value i k d = d)
  /\ getSliceString i k = None.
Proof.
  intros H. split; [intros d; apply getStringValue_unset; exact H|].
  unfold getBoolValue, getIntValue, getInt64Value, getSliceString.
  destruct H as [H | [H | H]]; rewrite H; repeat split.
Qed.

(** C3.  When the label is present with a non-empty value that is
    unparseable at the requested type - not one of the true/false tokens
    for bool, not a base-10 integer of the size of [int] or of 64 bits for
    int and int64 - the accessor returns [defaultValue].  The accessors are
    total functions into the value type: there is no error outcome to
    signal. *)
Theorem typed_accessors_default_when_malformed (i : ecsInstance) (k raw : string) :
  label_set i k raw ->
  (raw ∉ bool_tokens -> forall d, getBoolValue i k d = d)
  /\ (IntSize = 32 \/ IntSize = 64 ->
      base10_int IntSize raw = None -> forall d, getIntValue i k d = d)
  /\ (base10_int 64 raw = None -> forall d, getInt64Value i k d = d).
Proof.
  intros [H _]. unfold getBoolValue, getIntValue, getInt64Value, Atoi. rewrite H.
  split; [|split].
  - intros E%ParseBool_None d. rewrite E. reflexivity.
  - intros Hsize E d. rewrite ParseInt10_spec, E by lia. reflexivity.
  - intros E d. rewrite ParseInt10_spec, E by lia. reflexivity.
Qed.

(** C4.  On a non-empty group every first-instance accessor returns what
    the typed accessor returns on instance 0, whatever the other
    instances are.  In particular, in a group of two where the first
    instance has no stickiness label, the stickiness accessor returns its
    default [false] even when the second instance carries the label. *)
Theorem first_accessors_use_first_instance (i : ecsInstance) (rest : list ecsInstance) :
  (forall k d, getFuncFirstStringValue k d (i :: rest) = Ok (getStringValue i k d))
  /\ (forall k d, getFuncFirstBoolValue k d (i :: rest) = Ok (getBoolValue i k d))
  /\ (forall k d, getFuncFirstIntValue k d (i :: rest) = Ok (getIntValue i k d))
  /\ (forall k d, getFuncFirstInt64Value k d (i :: rest) = Ok (getInt64Value i k d))
  /\ (label_unset i TraefikBackendLoadBalancerStickiness ->
      hasStickinessLabel (i :: rest) = Ok false).
Proof.
  repeat split.
  intros H. unfold hasStickinessLabel, getFuncFirstBoolValue.
  rewrite guard_never_taken, index_head. simpl. f_equal.
  apply getBoolValue_unset. exact H.
Qed.

(** Replacing the one-byte string "_" by "-" acts byte by byte. *)
Lemma Replace_all_underscore (s : string) :
  strings.Replace_all s "_" "-" = strings.map_bytes hyphenate s.
Proof.
  unfold strings.Replace_all.
  induction s as [|c s IH]; [reflexivity|].
  cbn [strings.Replace_from strings.map_bytes String.prefix String.length Nat.pred].
  unfold hyphenate at 1.
  destruct (ascii_dec "_" c) as [<- | Hne].
  - rewrite bool_decide_eq_true_2 by reflexivity.
    replace (String.prefix "" s) with true by (destruct s; reflexivity).
    cbn. f_equal. exact IH.
  - rewrite bool_decide_eq_false_2 by congruence.
    f_equal. exact IH.
Qed.

Lemma hyphenate_is_ascii (c : ascii) :
  strings.is_ascii (hyphenate c) = strings.is_ascii c.
Proof. destruct c as [[] [] [] [] [] [] [] []]; reflexivity. Qed.

Lemma hyphenate_lower_byte (c : ascii) :
  strings.lower_byte (hyphenate c) = hyphenate (strings.lower_byte c).
Proof. destruct c as [[] [] [] [] [] [] [] []]; reflexivity. Qed.

Lemma all_ascii_hyphenate (s : string) :
  strings.all_bytes strings.is_ascii (strings.map_bytes hyphenate s)
  = strings.all_bytes strings.is_ascii s.
Proof.
  induction s as [|c s IH]; [reflexivity|].
  cbn [strings.map_bytes strings.all_bytes].
  rewrite hyphenate_is_ascii, IH. reflexivity.
Qed.

Lemma lower_hyphenate_commute (s : string) :
  strings.map_bytes strings.lower_byte (strings.map_bytes hyphenate s)
  = strings.map_bytes hyphenate (strings.map_bytes strings.lower_byte s).
Proof.
  induction s as [|c s IH]; [reflexivity|].
  cbn [strings.map_bytes]. rewrite hyphenate_lower_byte, IH. reflexivity.
Qed.

(** On an ASCII name the synthesized host label is the name lowercased
    with its underscores turned into hyphens. *)
Lemma ToLower_Replace_ascii (s : string) :
  strings.all_bytes strings.is_ascii s = true ->
  strings.ToLower MapUnicodeToLower (strings.Replace_all s "_" "-")
  = strings.map_bytes hyphenate (strings.map_bytes strings.lower_byte s).
Proof.
  intros H. unfold strings.ToLower.
  rewrite Replace_all_underscore, all_ascii_hyphenate, H.
  apply lower_hyphenate_commute.
Qed.

(** C5.  With no explicit routing-rule label, [getFrontendRule] returns
    "Host:" followed by the service name with underscores replaced by
    hyphens and lowercased, a dot, and the provider's domain.  For an
    ASCII name that is the name lowercased byte by byte with every
    underscore turned into a hyphen; My_Service under example.com gives
    Host:my-service.example.com. *)
Theorem getFrontendRule_default (p : Provider) (i : ecsInstance) :
  label_unset i TraefikFrontendRule ->
  getFrontendRule p i
    = "Host:" +:+ strings.ToLower MapUnicodeToLower (strings.Replace_all (Name i) "_" "-")
        +:+ "." +:+ Domain p
  /\ (strings.all_bytes strings.is_ascii (Name i) = true ->
      getFrontendRule p i
        = "Host:" +:+ strings.map_bytes hyphenate (strings.map_bytes strings.lower_byte (Name i))
            +:+ "." +:+ Domain p)
  /\ (Name i = "My_Service" -> Domain p = "example.com" ->
      getFrontendRule p i = "Host:my-service.example.com").
Proof.
  intros H.
  assert (E : getFrontendRule p i
    = "Host:" +:+ strings.ToLower MapUnicodeToLower (strings.Replace_all (Name i) "_" "-")
        +:+ "." +:+ Domain p).
  { unfold getFrontendRule. apply getStringValue_unset. exact H. }
  split; [exact E|]. split.
  - intros Hascii. rewrite E, ToLower_Replace_ascii by exact Hascii. reflexivity.
  - intros Hn Hd. rewrite E, Hn, Hd. reflexivity.
Qed.

Lemma hasFirst_nil (k : string) : hasFirst [] k = Ok false.
Proof. reflexivity. Qed.

Lemma hasFirst_cons (i : ecsInstance) (rest : list ecsInstance) (k : string) :
  exists b, hasFirst (i :: rest) k = Ok b
            /\ (b = true <-> exists v, label_set i k v).
Proof.
  unfold hasFirst.
  rewrite bool_decide_eq_true_2 by (unfold len; simpl; lia).
  rewrite index_head. cbn [bind]. unfold label_set.
  destruct (DockerLabels i !! k) as [[s|]|] eqn:E.
  - eexists; split; [reflexivity|].
    rewrite negb_true_iff, bool_decide_eq_false, len_string_zero.
    split.
    + intros Hs. exists s. auto.
    + intros (v & Hv & Hne). congruence.
  - exists false. split; [reflexivity|].
    split; [discriminate | intros (v & Hv & _); discriminate].
  - exists false. split; [reflexivity|].
    split; [discriminate | intros (v & Hv & _); discriminate].
Qed.

Lemma hasFirst_spec (instances : list ecsInstance) (k : string) :
  exists b, hasFirst instances k = Ok b /\ (b = true <-> set_on_first instances k).
Proof.
  destruct instances as [|i rest].
  - exists false. split; [reflexivity|].
    split; [discriminate | intros (i & v & Hi & _); discriminate].
  - destruct (hasFirst_cons i rest k) as (b & Hb & Hiff).
    exists b. split; [exact Hb|]. rewrite Hiff. unfold set_on_first.
    split.
    + intros (v & Hv). exists i, v. auto.
    + intros (i' & v & Hi & Hv). simpl in Hi. exists v. congruence.
Qed.

(** C6.  [hasMaxConnLabels] never panics, and it is true exactly when
    both the max-connection amount label and the extractor-function
    label are set (present with a non-empty value) on the first instance;
    with exactly one of the two set it is false. *)
Theorem hasMaxConnLabels_both (instances : list ecsInstance) :
  exists b, hasMaxConnLabels instances = Ok b
    /\ (b = true <->
          set_on_first instances TraefikBackendMaxConnAmount
          /\ set_on_first instances TraefikBackendMaxConnExtractorFunc)
    /\ ((set_on_first instances TraefikBackendMaxConnAmount
           /\ ~ set_on_first instances TraefikBackendMaxConnExtractorFunc)
        \/ (~ set_on_first instances TraefikBackendMaxConnAmount
              /\ set_on_first instances TraefikBackendMaxConnExtractorFunc) ->
        b = false).
Proof.
  destruct (hasFirst_spec instances TraefikBackendMaxConnAmount) as (a & Ha & Hai).
  destruct (hasFirst_spec instances TraefikBackendMaxConnExtractorFunc) as (e & He & Hei).
  exists (a && e). unfold hasMaxConnLabels. rewrite Ha, He. cbn [bind].
  split; [reflexivity|].
  rewrite <- Hai, <- Hei. split.
  - apply andb_true_iff.
  - intros [[-> Hne] | [Hna ->]].
    + destruct e; [congruence | reflexivity].
    + destruct a; [congruence | reflexivity].
Qed.

(** C9.  [hasFirst] is false on the empty group.  On a non-empty group
    it never panics and is true exactly when the first instance carries
    the key with a non-nil, non-empty value; it is false exactly when the
    key is absent, nil or empty there, which is when the string accessor
    falls back to its default. *)
Theorem hasFirst_presence (k : string) :
  hasFirst [] k = Ok false
  /\ forall (i : ecsInstance) (rest : list ecsInstance),
       exists b, hasFirst (i :: rest) k = Ok b
         /\ (b = true <-> exists v, DockerLabels i !! k = Some (Some v) /\ v <> "")
         /\ (b = false <-> label_unset i k)
         /\ (b = false -> forall d, getStringValue i k d = d).
Proof.
  split; [apply hasFirst_nil|].
  intros i rest. destruct (hasFirst_cons i rest k) as (b & Hb & Hiff).
  exists b. split; [exact Hb|]. split; [exact Hiff|].
  assert (Hfalse : b = false <-> label_unset i k).
  { split.
    - intros ->. destruct (label_unset_or_set i k) as [H | H]; [exact H|].
      apply Hiff in H. discriminate.
    - intros H. destruct b; [|reflexivity].
      destruct Hiff as [Hv _]. destruct (Hv eq_refl) as (v & Hset).
      exfalso. exact (label_unset_not_set i k v H Hset). }
  split; [exact Hfalse|].
  intros Hb' d. apply getStringValue_unset. apply Hfalse. exact Hb'.
Qed.

(** C10.  On a non-empty group whose first instance has the
    max-connection amount label absent, nil, empty, or set to a string
    that is not a base-10 64-bit integer, [getMaxConnAmount] returns
    [math.MaxInt64], which is 2^63 - 1 = 9223372036854775807. *)
Theorem getMaxConnAmount_default (i : ecsInstance) (rest : list ecsInstance) :
  label_unset i TraefikBackendMaxConnAmount
  \/ (exists v, DockerLabels i !! TraefikBackendMaxConnAmount = Some (Some v)
                /\ base10_int 64 v = None) ->
  getMaxConnAmount (i :: rest) = Ok MaxInt64
  /\ MaxInt64 = 9223372036854775807.
Proof.
  intros H. split; [|reflexivity].
  unfold getMaxConnAmount, getFuncFirstInt64Value.
  rewrite guard_never_taken, index_head. cbn [bind]. f_equal.
  destruct H as [H | (v & Hv & Hp)].
  - apply getInt64Value_unset. exact H.
  - unfold getInt64Value. rewrite Hv, ParseInt10_spec, Hp by lia. reflexivity.
Qed.

(** *** The frontend filter *)

(** One step of the scan. *)
Lemma Filter_notSeen_cons (x : ecsInstance) (xs : list ecsInstance) (seen : gset string) :
  fst (Filter notSeen (x :: xs) seen)
  = if bool_decide (Name x ∈ seen) then fst (Filter notSeen xs seen)
    else x :: fst (Filter notSeen xs ({[Name x]} ∪ seen)).
Proof.
  cbn [Filter]. unfold notSeen at 1.
  destruct (bool_decide (Name x ∈ seen)); cbn [negb];
    destruct (Filter notSeen xs _) as [ys st2]; reflexivity.
Qed.

Lemma Filter_notSeen_sublist (xs : list ecsInstance) (seen : gset string) :
  fst (Filter notSeen xs seen) `sublist_of` xs.
Proof.
  revert seen. induction xs as [|x xs IH]; intros seen.
  - constructor.
  - rewrite Filter_notSeen_cons. destruct (bool_decide (Name x ∈ seen)).
    + apply sublist_cons. apply IH.
    + apply sublist_skip. apply IH.
Qed.

(** A kept element has a name that was not in the set at the start. *)
Lemma Filter_notSeen_fresh (xs : list ecsInstance) (seen : gset string) (y : ecsInstance) :
  y ∈ fst (Filter notSeen xs seen) -> Name y ∉ seen.
Proof.
  revert seen. induction xs as [|x xs IH]; intros seen.
  - cbn. intros H. inversion H.
  - rewrite Filter_notSeen_cons. case_bool_decide as Hx.
    + apply IH.
    + intros [-> | Hy]%elem_of_cons; [exact Hx|].
      apply IH in Hy. intros Hs. apply Hy. apply elem_of_union_r. exact Hs.
Qed.

Lemma Filter_notSeen_NoDup (xs : list ecsInstance) (seen : gset string) :
  NoDup (Name <$> fst (Filter notSeen xs seen)).
Proof.
  revert seen. induction xs as [|x xs IH]; intros seen.
  - cbn. constructor.
  - rewrite Filter_notSeen_cons. case_bool_decide as Hx; [apply IH|].
    rewrite fmap_cons. apply NoDup_cons. split; [|apply IH].
    intros (y & Hn & Hy)%list_elem_of_fmap.
    apply Filter_notSeen_fresh in Hy. apply Hy. rewrite <- Hn.
    apply elem_of_union_l, elem_of_singleton. reflexivity.
Qed.

(** A list of pairwise distinct names, none of them seen, is kept whole. *)
Lemma Filter_notSeen_fixed (xs : list ecsInstance) (seen : gset string) :
  NoDup (Name <$> xs) ->
  (forall y, y ∈ xs -> Name y ∉ seen) ->
  fst (Filter notSeen xs seen) = xs.
Proof.
  revert seen. induction xs as [|x xs IH]; intros seen Hnd Hfresh; [reflexivity|].
  rewrite Filter_notSeen_cons.
  rewrite fmap_cons in Hnd. apply NoDup_cons in Hnd as [Hx Hnd].
  rewrite bool_decide_eq_false_2 by (apply Hfresh; left).
  f_equal. apply IH; [exact Hnd|].
  intros y Hy. specialize (Hfresh y (list_elem_of_further _ _ _ Hy)).
  assert (Hne : Name y <> Name x).
  { intros E. apply Hx. rewrite <- E. apply list_elem_of_fmap.
    exists y. split; [reflexivity | exact Hy]. }
  rewrite elem_of_union, elem_of_singleton.
  intros [Hn | Hs]; [exact (Hne Hn) | exact (Hfresh Hs)].
Qed.

(** Every name of the list was seen before or is the name of a kept
    element. *)
Lemma Filter_notSeen_names (xs : list ecsInstance) (seen : gset string) (x : ecsInstance) :
  x ∈ xs -> Name x ∈ seen \/ Name x ∈ Name <$> fst (Filter notSeen xs seen).
Proof.
  revert seen. induction xs as [|x0 xs IH]; intros seen Hx; [inversion Hx|].
  rewrite Filter_notSeen_cons. apply elem_of_cons in Hx as [-> | Hx].
  - case_bool_decide as H0; [left; exact H0|].
    right. rewrite fmap_cons. apply list_elem_of_here.
  - case_bool_decide as H0; [apply IH; exact Hx|].
    rewrite fmap_cons.
    destruct (IH ({[Name x0]} ∪ seen) Hx) as [[Hs | Hs]%elem_of_union | Hk].
    + apply elem_of_singleton in Hs. rewrite Hs. right. apply list_elem_of_here.
    + left. exact Hs.
    + right. apply list_elem_of_further. exact Hk.
Qed.

(** The scan started with the names of [pre] in the set keeps, among
    [xs], the first occurrences relative to [pre ++ xs]. *)
Lemma Filter_notSeen_first (xs pre : list ecsInstance) (seen : gset string) :
  (forall n, n ∈ seen <-> n ∈ Name <$> pre) ->
  fst (Filter notSeen xs seen)
  = snd <$> List.filter (fun kx => first_of_its_name (pre ++ xs) (fst kx) (snd kx))
              (imap (fun k x => ((List.length pre + k)%nat, x)) xs).
Proof.
  revert pre seen. induction xs as [|x xs IH]; intros pre seen Hseen; [reflexivity|].
  rewrite Filter_notSeen_cons, imap_cons. cbn [List.filter fst snd].
  assert (Hpre : first_of_its_name (pre ++ x :: xs) (List.length pre + 0) x
                 = negb (bool_decide (Name x ∈ seen))).
  { unfold first_of_its_name. rewrite Nat.add_0_r, take_app_length.
    rewrite <- bool_decide_not. apply bool_decide_ext. rewrite Hseen. reflexivity. }
  rewrite Hpre.
  assert (Htail : forall seen',
    (forall n, n ∈ seen' <-> n ∈ Name <$> (pre ++ [x])%list) ->
    fst (Filter notSeen xs seen')
    = snd <$> List.filter (fun kx => first_of_its_name (pre ++ x :: xs) (fst kx) (snd kx))
                (imap ((fun k y => ((List.length pre + k)%nat, y)) ∘ S) xs)).
  { intros seen' Hseen'. rewrite (IH (pre ++ [x])%list seen' Hseen').
    rewrite <- app_assoc. cbn [app]. do 2 f_equal.
    apply imap_ext. intros k y _. cbn. rewrite length_app. cbn. f_equal. lia. }
  case_bool_decide as Hx; cbn [negb].
  - apply Htail. intros n. rewrite fmap_app, elem_of_app, <- Hseen. cbn.
    rewrite list_elem_of_singleton. split; [auto | intros [H | ->]; auto].
  - rewrite fmap_cons. cbn [snd]. f_equal.
    apply Htail. intros n. rewrite fmap_app, elem_of_app, <- Hseen. cbn.
    rewrite list_elem_of_singleton, elem_of_union, elem_of_singleton.
    split; intros [H | H]; auto.
Qed.

(** C7.  [filterFrontends] returns the elements that are the first
    occurrence of their [Name], in their original order: it is the
    specification's [dedupeByName], a subsequence of its argument in which
    every name of the argument occurs and none occurs twice, and applying
    it to its own result changes nothing. *)
Theorem filterFrontends_first_occurrences (instances : list ecsInstance) :
  filterFrontends instances = dedupeByName instances
  /\ filterFrontends instances `sublist_of` instances
  /\ (forall x, x ∈ instances -> Name x ∈ Name <$> filterFrontends instances)
  /\ NoDup (Name <$> filterFrontends instances)
  /\ filterFrontends (filterFrontends instances) = filterFrontends instances.
Proof.
  unfold filterFrontends. split; [|split; [|split; [|split]]].
  - rewrite (Filter_notSeen_first instances [] ∅).
    + reflexivity.
    + intros n. cbn. rewrite elem_of_empty, elem_of_nil. reflexivity.
  - apply Filter_notSeen_sublist.
  - intros x Hx. destruct (Filter_notSeen_names instances ∅ x Hx) as [H | H].
    + apply elem_of_empty in H. destruct H.
    + exact H.
  - apply Filter_notSeen_NoDup.
  - apply Filter_notSeen_fixed; [apply Filter_notSeen_NoDup|].
    intros y _. apply not_elem_of_empty.
Qed.

(** *** Host and port *)

Lemma getPort_label (i : ecsInstance) (v : string) :
  label_set i TraefikPort v -> getPort i = Ok v.
Proof.
  intros H. unfold getPort. rewrite (getStringValue_set i TraefikPort v "" H).
  rewrite bool_decide_eq_true_2; [reflexivity|].
  apply len_string_pos. apply H.
Qed.

Lemma getPort_binding (i : ecsInstance) :
  label_unset i TraefikPort ->
  getPort i = (b <- index (NetworkBindings i) 0 ;;
               hostPort <- deref (HostPort b) ;;
               Ok (strconv.FormatInt10 hostPort)).
Proof.
  intros H. unfold getPort. rewrite (getStringValue_unset i TraefikPort "" H).
  reflexivity.
Qed.


(** ** Further properties of the accessors *)

Lemma getFirstStringValue_cons (i : ecsInstance) (rest : list ecsInstance) (k d : string) :
  getFirstStringValue (i :: rest) k d = Ok (getStringValue i k d).
Proof. reflexivity. Qed.

Lemma set_on_first_cons (i : ecsInstance) (rest : list ecsInstance) (k : string) :
  set_on_first (i :: rest) k <-> exists v, label_set i k v.
Proof.
  unfold set_on_first. split.
  - intros (j & v & Hj & Hv). cbn in Hj. injection Hj as <-. exists v. exact Hv.
  - intros (v & Hv). exists i, v. split; [reflexivity | exact Hv].
Qed.


(** X1.  [hasLoadBalancerLabel] never panics, and it is true exactly when
    one at least of the method, sticky, stickiness and cookie-name labels
    is set to a non-empty value on the first instance. *)
Theorem hasLoadBalancerLabel_any (instances : list ecsInstance) :
  exists b, hasLoadBalancerLabel instances = Ok b
    /\ (b = true <->
          set_on_first instances TraefikBackendLoadBalancerMethod
          \/ set_on_first instances TraefikBackendLoadBalancerSticky
          \/ set_on_first instances TraefikBackendLoadBalancerStickiness
          \/ set_on_first instances TraefikBackendLoadBalancerStickinessCookieName).
Proof.
  destruct (hasFirst_spec instances TraefikBackendLoadBalancerMethod) as (m & Hm & Im).
  destruct (hasFirst_spec instances TraefikBackendLoadBalancerSticky) as (s & Hs & Is).
  destruct (hasFirst_spec instances TraefikBackendLoadBalancerStickiness) as (t & Ht & It).
  destruct (hasFirst_spec instances TraefikBackendLoadBalancerStickinessCookieName)
    as (c & Hc & Ic).
  exists (m || s || t || c). unfold hasLoadBalancerLabel.
  rewrite Hm, Hs, Ht, Hc. cbn [bind]. split; [reflexivity|].
  rewrite !orb_true_iff, Im, Is, It, Ic, !Logic.or_assoc. reflexivity.
Qed.


Lemma ParseBool_true (raw : string) :
  strconv.ParseBool raw = Some true <-> raw ∈ true_tokens.
Proof.
  unfold strconv.ParseBool, true_tokens.
  case_bool_decide as Ht; [split; auto|].
  split; [|intros H; contradiction].
  case_bool_decide; discriminate.
Qed.

Lemma ParseBool_false (raw : string) :
  strconv.ParseBool raw = Some false <-> raw ∈ false_tokens.
Proof.
  unfold strconv.ParseBool, false_tokens.
  case_bool_decide as Ht.
  - split; [discriminate|]. intros Hf. exfalso. revert Ht.
    repeat (apply elem_of_cons in Hf as [-> | Hf];
            [apply (bool_decide_unpack _); vm_compute; exact I|]).
    inversion Hf.
  - case_bool_decide as Hf; [split; auto|].
    split; [discriminate | intros H; contradiction].
Qed.

(** X3.  With [exposedByDefault] an instance is disabled exactly when its
    enable label is one of the false tokens; without it, an instance is
    enabled exactly when its enable label is one of the true tokens. *)
Theorem isEnabled_tokens (i : ecsInstance) :
  (isEnabled i true = false <->
     exists raw, DockerLabels i !! TraefikEnable = Some (Some raw) /\ raw ∈ false_tokens)
  /\ (isEnabled i false = true <->
        exists raw, DockerLabels i !! TraefikEnable = Some (Some raw) /\ raw ∈ true_tokens).
Proof.
  unfold isEnabled, getBoolValue.
  destruct (DockerLabels i !! TraefikEnable) as [[raw|]|].
  - split; split.
    + destruct (strconv.ParseBool raw) as [[]|] eqn:E; try discriminate.
      intros _. exists raw. split; [reflexivity | apply ParseBool_false, E].
    + intros (r & [= <-] & Hr%ParseBool_false). rewrite Hr. reflexivity.
    + destruct (strconv.ParseBool raw) as [[]|] eqn:E; try discriminate.
      intros _. exists raw. split; [reflexivity | apply ParseBool_true, E].
    + intros (r & [= <-] & Hr%ParseBool_true). rewrite Hr. reflexivity.
  - split; (split; [discriminate | intros (r & Hr & _); discriminate Hr]).
  - split; (split; [discriminate | intros (r & Hr & _); discriminate Hr]).
Qed.

(** X4.  When the label holds a value that parses, the accessor returns
    the parsed value and ignores the default: the integer written, for a
    base-10 integer of the size of the type; true or false, for a boolean
    token; the value itself, for a non-empty string. *)
Theorem typed_accessors_parsed (i : ecsInstance) (k : string) :
  (forall raw z d, DockerLabels i !! k = Some (Some raw) ->
                   base10_int 64 raw = Some z -> getInt64Value i k d = z)
  /\ (forall raw z d, DockerLabels i !! k = Some (Some raw) ->
                      IntSize = 32 \/ IntSize = 64 ->
                      base10_int IntSize raw = Some z -> getIntValue i k d = z)
  /\ (forall raw d, DockerLabels i !! k = Some (Some raw) ->
                    raw ∈ true_tokens -> getBoolValue i k d = true)
  /\ (forall raw d, DockerLabels i !! k = Some (Some raw) ->
                    raw ∈ false_tokens -> getBoolValue i k d = false)
  /\ (forall raw d, DockerLabels i !! k = Some (Some raw) ->
                    raw <> "" -> getStringValue i k d = raw).
Proof.
  unfold getInt64Value, getIntValue, getBoolValue, Atoi.
  split; [|split; [|split; [|split]]].
  - intros raw z d H E. rewrite H, ParseInt10_spec, E by lia. reflexivity.
  - intros raw z d H Hsize E. rewrite H, ParseInt10_spec, E by lia. reflexivity.
  - intros raw d H E%ParseBool_true. rewrite H, E. reflexivity.
  - intros raw d H E%ParseBool_false. rewrite H, E. reflexivity.
  - intros raw d H Hne. apply getStringValue_set. split; assumption.
Qed.

Lemma base10_int_range (bits : Z) (s : string) (z : Z) :
  base10_int bits s = Some z -> - 2 ^ (bits - 1) <= z <= 2 ^ (bits - 1) - 1.
Proof.
  unfold base10_int. destruct (base10 s) as [n|]; [|discriminate].
  case_bool_decide as Hr; [|discriminate]. intros [= <-]. exact Hr.
Qed.

(** X5.  The integer accessors stay within the range of their type: given
    a default in range, [getInt64Value] returns a value between -2^63 and
    2^63 - 1, and [getIntValue] one that fits the platform's [int]. *)
Theorem int_accessors_in_range (i : ecsInstance) (k : string) (d : Z) :
  (- 2 ^ 63 <= d <= 2 ^ 63 - 1 -> - 2 ^ 63 <= getInt64Value i k d <= 2 ^ 63 - 1)
  /\ (IntSize = 32 \/ IntSize = 64 ->
      - 2 ^ (IntSize - 1) <= d <= 2 ^ (IntSize - 1) - 1 ->
      - 2 ^ (IntSize - 1) <= getIntValue i k d <= 2 ^ (IntSize - 1) - 1).
Proof.
  unfold getInt64Value, getIntValue, Atoi.
  destruct (DockerLabels i !! k) as [[raw|]|]; try (split; intros; assumption).
  split.
  - intros Hd. rewrite ParseInt10_spec by lia.
    destruct (base10_int 64 raw) as [z|] eqn:E; [|exact Hd].
    apply base10_int_range in E. exact E.
  - intros Hsize Hd. rewrite ParseInt10_spec by lia.
    destruct (base10_int IntSize raw) as [z|] eqn:E; [|exact Hd].
    apply base10_int_range in E. exact E.
Qed.

(** X6.  [getStringValue] returns either its default or a non-empty label
    value; so with a non-empty default it never returns the empty string. *)
Theorem getStringValue_nonempty (i : ecsInstance) (k d : string) :
  (getStringValue i k d = d \/ label_set i k (getStringValue i k d))
  /\ (d <> "" -> getStringValue i k d <> "").
Proof.
  destruct (label_unset_or_set i k) as [H | (v & Hv)].
  - rewrite (getStringValue_unset i k d H). split; [left; reflexivity | auto].
  - rewrite (getStringValue_set i k v d Hv). split; [right; exact Hv|].
    intros _. apply Hv.
Qed.

(** X7.  A presence probe and the string accessor with the empty default
    agree on every group: neither panics, and the probe is true exactly
    when the accessor returns a non-empty string.  This is the pairing of
    [hasHealthCheckLabels] with [getHealthCheckPath]. *)
Theorem presence_agrees_with_value (instances : list ecsInstance) (k : string) :
  exists b v, hasFuncFirst k instances = Ok b
    /\ getFuncFirstStringValue k "" instances = Ok v
    /\ (b = true <-> v <> "").
Proof.
  unfold hasFuncFirst, getFuncFirstStringValue. destruct instances as [|i rest].
  - exists false, "". repeat split; [discriminate | intros H; contradiction].
  - destruct (hasFirst_cons i rest k) as (b & Hb & Hiff).
    exists b, (getStringValue i k ""). split; [exact Hb|].
    split; [apply getFirstStringValue_cons|]. rewrite Hiff. split.
    + intros (v & Hv). rewrite (getStringValue_set i k v "" Hv). apply Hv.
    + intros Hne. destruct (label_unset_or_set i k) as [H | H]; [|exact H].
      exfalso. apply Hne. apply getStringValue_unset. exact H.
Qed.

(** X8.  Behind a true presence probe the first-instance accessors are
    safe: when [hasFirst] is true for some label the group is not empty, so
    the int, int64 and bool accessors return a value for every label; in
    particular, when [hasMaxConnLabels] is true, [getMaxConnAmount] returns
    a 64-bit integer. *)
Theorem guarded_first_accessors (instances : list ecsInstance) :
  ((exists k, hasFirst instances k = Ok true) ->
   forall k',
     (forall d, exists v, getFuncFirstIntValue k' d instances = Ok v)
     /\ (forall d, exists v, getFuncFirstInt64Value k' d instances = Ok v)
     /\ (forall d, exists v, getFuncFirstBoolValue k' d instances = Ok v))
  /\ (hasMaxConnLabels instances = Ok true ->
      exists n, getMaxConnAmount instances = Ok n /\ - 2 ^ 63 <= n <= 2 ^ 63 - 1).
Proof.
  destruct instances as [|i rest].
  - split; [intros (k & Hk); discriminate Hk | intros H; discriminate H].
  - split.
    + intros _ k'. unfold getFuncFirstIntValue, getFuncFirstInt64Value,
        getFuncFirstBoolValue.
      repeat split; intros d; rewrite guard_never_taken, index_head;
        eexists; reflexivity.
    + intros _. unfold getMaxConnAmount, getFuncFirstInt64Value.
      rewrite (guard_never_taken (i :: rest)), index_head. cbn [bind].
      eexists. split; [reflexivity|].
      unfold getInt64Value.
      destruct (DockerLabels i !! TraefikBackendMaxConnAmount) as [[raw|]|];
        try (unfold MaxInt64; lia).
      rewrite ParseInt10_spec by lia.
      destruct (base10_int 64 raw) as [z|] eqn:E; [|unfold MaxInt64; lia].
      apply base10_int_range in E. exact E.
Qed.

(** ** Further properties of the frontend filter *)

Lemma Filter_notSeen_all_seen (xs : list ecsInstance) (seen : gset string) :
  (forall x, x ∈ xs -> Name x ∈ seen) -> fst (Filter notSeen xs seen) = [].
Proof.
  induction xs as [|x xs IH]; intros Hseen; [reflexivity|].
  rewrite Filter_notSeen_cons.
  rewrite bool_decide_eq_true_2 by (apply Hseen; apply list_elem_of_here).
  apply IH. intros y Hy. apply Hseen. apply list_elem_of_further. exact Hy.
Qed.

(** The first instance is always kept. *)
Lemma filterFrontends_head (i : ecsInstance) (rest : list ecsInstance) :
  filterFrontends (i :: rest) = i :: fst (Filter notSeen rest ({[Name i]} ∪ ∅)).
Proof.
  unfold filterFrontends. rewrite Filter_notSeen_cons.
  rewrite bool_decide_eq_false_2 by apply not_elem_of_empty. reflexivity.
Qed.

(** X9.  [filterFrontends] returns its argument unchanged exactly when
    the names of the instances are pairwise distinct. *)
Theorem filterFrontends_identity (instances : list ecsInstance) :
  filterFrontends instances = instances <-> NoDup (Name <$> instances).
Proof.
  unfold filterFrontends. split.
  - intros H. rewrite <- H. apply Filter_notSeen_NoDup.
  - intros H. apply Filter_notSeen_fixed; [exact H|].
    intros y _. apply not_elem_of_empty.
Qed.

(** X10.  On a group whose instances all carry the name of the first one,
    as the instances of one service do, [filterFrontends] keeps the first
    instance alone. *)
Theorem filterFrontends_one_service (i : ecsInstance) (rest : list ecsInstance) :
  (forall x, x ∈ rest -> Name x = Name i) -> filterFrontends (i :: rest) = [i].
Proof.
  intros Hname. rewrite filterFrontends_head. f_equal.
  apply Filter_notSeen_all_seen. intros x Hx. rewrite (Hname x Hx).
  apply elem_of_union_l, elem_of_singleton. reflexivity.
Qed.

Lemma hasFirst_only_first (i : ecsInstance) (rest rest' : list ecsInstance) (k : string) :
  hasFirst (i :: rest) k = hasFirst (i :: rest') k.
Proof.
  unfold hasFirst.
  rewrite !bool_decide_eq_true_2 by (unfold len; cbn [List.length]; lia).
  reflexivity.
Qed.

(** X11.  Filtering a group does not change what is read from its first
    instance: the presence probe and the four first-instance accessors
    give the same outcome on [filterFrontends instances] as on
    [instances], the empty group included. *)
Theorem filterFrontends_keeps_first_instance (instances : list ecsInstance) (k : string) :
  hasFirst (filterFrontends instances) k = hasFirst instances k
  /\ (forall d, getFuncFirstStringValue k d (filterFrontends instances)
                = getFuncFirstStringValue k d instances)
  /\ (forall d, getFuncFirstBoolValue k d (filterFrontends instances)
                = getFuncFirstBoolValue k d instances)
  /\ (forall d, getFuncFirstIntValue k d (filterFrontends instances)
                = getFuncFirstIntValue k d instances)
  /\ (forall d, getFuncFirstInt64Value k d (filterFrontends instances)
                = getFuncFirstInt64Value k d instances).
Proof.
  destruct instances as [|i rest]; [repeat split|].
  rewrite filterFrontends_head.
  split; [apply hasFirst_only_first|].
  unfold getFuncFirstBoolValue, getFuncFirstIntValue, getFuncFirstInt64Value.
  repeat split; intros d; rewrite !guard_never_taken; reflexivity.
Qed.

(** ** Further properties of the rule, the host and the port *)

Lemma getStringValue_default_nonempty (i : ecsInstance) (k d : string) :
  d <> "" -> getStringValue i k d <> "".
Proof.
  intros Hd. destruct (label_unset_or_set i k) as [H | (v & Hv)].
  - rewrite (getStringValue_unset i k d H). exact Hd.
  - rewrite (getStringValue_set i k v d Hv). apply Hv.
Qed.

(** X12.  Every instance gets a rule: [getFrontendRule] never returns the
    empty string, and when the rule label is set to a non-empty value it
    returns that value whatever the name and the domain are. *)
Theorem getFrontendRule_nonempty (p : Provider) (i : ecsInstance) :
  getFrontendRule p i <> ""
  /\ (forall v, label_set i TraefikFrontendRule v -> getFrontendRule p i = v).
Proof.
  unfold getFrontendRule. split.
  - apply getStringValue_default_nonempty. discriminate.
  - intros v Hv. apply getStringValue_set. exact Hv.
Qed.

Lemma map_bytes_length (f : ascii -> ascii) (s : string) :
  String.length (strings.map_bytes f s) = String.length s.
Proof. induction s as [|c s IH]; cbn; [reflexivity | f_equal; exact IH]. Qed.

Lemma host_byte_normalised (c : ascii) :
  strings.is_ascii c = true -> host_byte (hyphenate (strings.lower_byte c)) = true.
Proof.
  destruct c as [[] [] [] [] [] [] [] []]; intros H;
    first [reflexivity | discriminate H].
Qed.

Lemma all_host_bytes (s : string) :
  strings.all_bytes strings.is_ascii s = true ->
  strings.all_bytes host_byte
    (strings.map_bytes hyphenate (strings.map_bytes strings.lower_byte s)) = true.
Proof.
  induction s as [|c s IH]; [reflexivity|].
  cbn [strings.all_bytes strings.map_bytes].
  intros [Hc Hs]%andb_true_iff.
  rewrite (host_byte_normalised c Hc), (IH Hs). reflexivity.
Qed.

(** X13.  For an ASCII service name and no rule label, the host put into
    the default rule has the length of the name and consists of ASCII
    bytes that are neither upper-case letters nor underscores. *)
Theorem getFrontendRule_host_normalised (p : Provider) (i : ecsInstance) :
  label_unset i TraefikFrontendRule ->
  strings.all_bytes strings.is_ascii (Name i) = true ->
  exists host,
    getFrontendRule p i = "Host:" +:+ host +:+ "." +:+ Domain p
    /\ String.length host = String.length (Name i)
    /\ strings.all_bytes host_byte host = true.
Proof.
  intros Hunset Hascii.
  exists (strings.map_bytes hyphenate (strings.map_bytes strings.lower_byte (Name i))).
  split; [|split].
  - unfold getFrontendRule. rewrite getStringValue_unset by exact Hunset.
    rewrite ToLower_Replace_ascii by exact Hascii. reflexivity.
  - rewrite !map_bytes_length. reflexivity.
  - apply all_host_bytes. exact Hascii.
Qed.

(** *** Writing and reading a port *)

Lemma digits_value_uint_acc (d : Decimal.uint) (acc : positive) :
  digits_value (NilEmpty.string_of_uint d) (Z.pos acc) = Some (Z.pos (Pos.of_uint_acc d acc)).
Proof.
  revert acc. induction d as [|d IH|d IH|d IH|d IH|d IH|d IH|d IH|d IH|d IH|d IH];
    intros acc; [reflexivity|..];
    cbn [NilEmpty.string_of_uint digits_value Pos.of_uint_acc];
    change (strconv.is_digit _) with true; cbv iota;
    rewrite <- IH; f_equal; unfold strconv.digit_val; cbn; lia.
Qed.

Lemma digits_value_uint (d : Decimal.uint) :
  digits_value (NilEmpty.string_of_uint d) 0 = Some (Z.of_N (Pos.of_uint d)).
Proof.
  induction d as [|d IH|d IH|d IH|d IH|d IH|d IH|d IH|d IH|d IH|d IH];
    [reflexivity| exact IH |..];
    cbn [NilEmpty.string_of_uint digits_value Pos.of_uint];
    change (strconv.is_digit _) with true; cbv iota;
    exact (digits_value_uint_acc d _).
Qed.

(** The decimal of a positive number is a non-empty string that does not
    start with a sign. *)
Lemma string_of_pos_shape (q : positive) :
  exists c s, NilZero.string_of_uint (Pos.to_uint q) = String c s
    /\ NilEmpty.string_of_uint (Pos.to_uint q) = String c s
    /\ c <> "+"%char /\ c <> "-"%char.
Proof.
  pose proof (Unsigned.to_uint_nonnil q) as Hnil.
  destruct (Pos.to_uint q) as [|d|d|d|d|d|d|d|d|d|d]; [contradiction|..];
    eexists _, _; (split; [reflexivity|]); (split; [reflexivity|]);
    split; discriminate.
Qed.

Lemma base10_FormatInt10 (z : Z) : base10 (strconv.FormatInt10 z) = Some z.
Proof.
  unfold strconv.FormatInt10. destruct z as [|q|q]; [reflexivity|..];
    cbn [Z.to_int NilZero.string_of_int];
    destruct (string_of_pos_shape q) as (c & s & E0 & E & Hplus & Hminus);
    pose proof (digits_value_uint (Pos.to_uint q)) as Hv;
    rewrite Unsigned.of_to, E in Hv; rewrite E0.
  - unfold base10.
    rewrite bool_decide_eq_false_2 by (intros [H | H]; contradiction).
    rewrite Hv, bool_decide_eq_false_2 by exact Hminus. reflexivity.
  - unfold base10.
    rewrite bool_decide_eq_true_2 by (right; reflexivity).
    rewrite Hv. reflexivity.
Qed.

(** [ParseInt] reads back what [FormatInt] writes. *)
Lemma ParseInt10_FormatInt10 (z : Z) :
  - 2 ^ 63 <= z <= 2 ^ 63 - 1 ->
  strconv.ParseInt10 (strconv.FormatInt10 z) 64 = Some z.
Proof.
  intros Hz. rewrite ParseInt10_spec by lia.
  unfold base10_int. rewrite base10_FormatInt10.
  rewrite bool_decide_eq_true_2; [reflexivity|].
  change (64 - 1) with 63. exact Hz.
Qed.

(** X14.  When [getPort] falls back to the port binding, the string it
    returns is the decimal writing of the host port: read back with
    [ParseInt] at base 10 and 64 bits it gives the host port again. *)
Theorem getPort_reads_back (i : ecsInstance) (b : NetworkBinding)
    (bs : list NetworkBinding) (hostPort : Z) :
  label_unset i TraefikPort ->
  NetworkBindings i = b :: bs ->
  HostPort b = Some hostPort ->
  - 2 ^ 63 <= hostPort <= 2 ^ 63 - 1 ->
  exists port, getPort i = Ok port
               /\ port <> ""
               /\ strconv.ParseInt10 port 64 = Some hostPort.
Proof.
  intros Hunset Hb Hp Hrange. exists (strconv.FormatInt10 hostPort).
  assert (Hread : strconv.ParseInt10 (strconv.FormatInt10 hostPort) 64 = Some hostPort)
    by (apply ParseInt10_FormatInt10; exact Hrange).
  split; [|split; [|exact Hread]].
  - rewrite (getPort_binding i Hunset), Hb. unfold index. cbn. rewrite Hp. reflexivity.
  - intros E. rewrite E in Hread. discriminate Hread.
Qed.

(** X15.  [getHost] and [getPort] both return, so that the instance can
    be given a server address, exactly when the instance has a private
    address and a port of its own: a non-empty port label, or a first
    port binding with a host port. *)
Theorem server_address_derivable (i : ecsInstance) :
  (exists host port, getHost i = Ok host /\ getPort i = Ok port)
  <-> (exists address, PrivateIpAddress i = Some address) /\ has_port i TraefikPort.
Proof.
  unfold getHost, deref, has_port. split.
  - intros (host & port & Hh & Hport). split.
    + destruct (PrivateIpAddress i) as [a|]; [exists a; reflexivity | discriminate Hh].
    + destruct (label_unset_or_set i TraefikPort) as [Hunset | Hset]; [|left; exact Hset].
      right. rewrite (getPort_binding i Hunset) in Hport. unfold index in Hport.
      destruct (NetworkBindings i) as [|b bs]; [discriminate Hport|].
      cbn in Hport. destruct (HostPort b) as [hp|] eqn:Ehp; [|discriminate Hport].
      exists b, bs, hp. split; [reflexivity | exact Ehp].
  - intros ((a & Ha) & Hport). rewrite Ha. exists a.
    destruct (label_unset_or_set i TraefikPort) as [Hunset | (v & Hv)].
    + destruct Hport as [(v & Hv) | (b & bs & hp & Hb & Hp)].
      * exfalso. exact (label_unset_not_set i TraefikPort v Hunset Hv).
      * exists (strconv.FormatInt10 hp). split; [reflexivity|].
        rewrite (getPort_binding i Hunset), Hb. unfold index. cbn.
        rewrite Hp. reflexivity.
    + exists v. split; [reflexivity | apply getPort_label; exact Hv].
Qed.

(** X16.  Stickiness switched on implies a load-balancer block: when
    [hasStickinessLabel] is true, so is [hasLoadBalancerLabel]. *)
Theorem stickiness_implies_load_balancer (instances : list ecsInstance) :
  hasStickinessLabel instances = Ok true -> hasLoadBalancerLabel instances = Ok true.
Proof.
  destruct instances as [|i rest]; [discriminate|].
  unfold hasStickinessLabel, getFuncFirstBoolValue.
  rewrite guard_never_taken, index_head. cbn [bind]. intros [= H].
  assert (Hset : set_on_first (i :: rest) TraefikBackendLoadBalancerStickiness).
  { apply set_on_first_cons. unfold getBoolValue in H.
    destruct (DockerLabels i !! TraefikBackendLoadBalancerStickiness)
      as [[raw|]|] eqn:E; try discriminate H.
    destruct (strconv.ParseBool raw) as [v|] eqn:P; [|discriminate H].
    subst v. apply ParseBool_true in P.
    exists raw. split; [exact E|]. intros ->. revert P.
    apply (bool_decide_unpack _). vm_compute. exact I. }
  destruct (hasFirst_spec (i :: rest) TraefikBackendLoadBalancerMethod) as (m & Hm & _).
  destruct (hasFirst_spec (i :: rest) TraefikBackendLoadBalancerSticky) as (s & Hs & _).
  destruct (hasFirst_spec (i :: rest) TraefikBackendLoadBalancerStickiness)
    as (t & Ht & It).
  destruct (hasFirst_spec (i :: rest) TraefikBackendLoadBalancerStickinessCookieName)
    as (c & Hc & _).
  unfold hasLoadBalancerLabel. rewrite Hm, Hs, Ht, Hc. cbn [bind].
  apply It in Hset. subst t. destruct m, s, c; reflexivity.
Qed.

End Config.

(** ** The frontend filter on lists put together *)

(** The scan of a concatenation: the second list is scanned with the set
    the first scan leaves. *)
Lemma Filter_app {St A : Type} (p : A -> St -> bool * St) (xs ys : list A) (st : St) :
  fst (Filter p (xs ++ ys)%list st)
  = (fst (Filter p xs st) ++ fst (Filter p ys (snd (Filter p xs st))))%list.
Proof.
  revert st. induction xs as [|x xs IH]; intros st; [reflexivity|].
  cbn [Filter app]. destruct (p x st) as [keep st1]. specialize (IH st1).
  destruct (Filter p (xs ++ ys)%list st1) as [zs st2].
  destruct (Filter p xs st1) as [zs1 st3]. cbn [fst snd] in *.
  rewrite IH. destruct keep; reflexivity.
Qed.

(** The set left by the scan holds the names it started with and those
    of the list. *)
Lemma Filter_notSeen_state (xs : list ecsInstance) (seen : gset string) :
  snd (Filter notSeen xs seen) = seen ∪ list_to_set (Name <$> xs).
Proof.
  revert seen. induction xs as [|x xs IH]; intros seen.
  - cbn. rewrite (right_id_L ∅ (∪)). reflexivity.
  - cbn [Filter]. unfold notSeen at 1.
    specialize (IH (if negb (bool_decide (Name x ∈ seen))
                    then {[Name x]} ∪ seen else seen)).
    destruct (Filter notSeen xs _) as [ys st2]. cbn [snd] in *. rewrite IH.
    rewrite fmap_cons, list_to_set_cons. apply set_eq. intros n.
    case_bool_decide as Hx; cbn [negb];
      rewrite !elem_of_union, !elem_of_singleton.
    + split; [intros [H | H]; auto | intros [H | [-> | H]]; auto].
    + split; [intros [[H | H] | H]; auto | intros [H | [H | H]]; auto].
Qed.

(** Starting the scan with more names in the set drops the kept elements
    that carry those names, and nothing else. *)
Lemma Filter_notSeen_more_seen (ys : list ecsInstance) (more seen : gset string) :
  fst (Filter notSeen ys (more ∪ seen))
  = filter (fun y => Name y ∉ more) (fst (Filter notSeen ys seen)).
Proof.
  revert seen. induction ys as [|y ys IH]; intros seen; [reflexivity|].
  rewrite !Filter_notSeen_cons.
  destruct (decide (Name y ∈ seen)) as [Hs | Hs].
  - rewrite (bool_decide_eq_true_2 (Name y ∈ more ∪ seen))
      by (apply elem_of_union_r; exact Hs).
    rewrite (bool_decide_eq_true_2 (Name y ∈ seen)) by exact Hs. apply IH.
  - rewrite (bool_decide_eq_false_2 (Name y ∈ seen)) by exact Hs.
    destruct (decide (Name y ∈ more)) as [Hm | Hm].
    + rewrite (bool_decide_eq_true_2 (Name y ∈ more ∪ seen))
        by (apply elem_of_union_l; exact Hm).
      rewrite filter_cons_False by (intros H; exact (H Hm)).
      rewrite <- IH. do 2 f_equal. apply set_eq. intros n.
      rewrite !elem_of_union, !elem_of_singleton.
      split; [intros [H | H]; auto | intros [H | [-> | H]]; auto].
    + rewrite (bool_decide_eq_false_2 (Name y ∈ more ∪ seen))
        by (intros [H | H]%elem_of_union; auto).
      rewrite filter_cons_True by exact Hm.
      rewrite <- IH. do 3 f_equal. apply set_eq. intros n.
      rewrite !elem_of_union, !elem_of_singleton.
      split; [intros [H | [H | H]]; auto | intros [H | [H | H]]; auto].
Qed.

(** X17.  Frontends are stable under appending: the result on [xs ++ ys]
    is the result on [xs], followed by those elements of the result on
    [ys] whose name does not occur in [xs]. *)
Theorem filterFrontends_app (xs ys : list ecsInstance) :
  filterFrontends (xs ++ ys)%list
  = (filterFrontends xs
     ++ filter (fun y => Name y ∉ (list_to_set (Name <$> xs) : gset string))
          (filterFrontends ys))%list.
Proof.
  unfold filterFrontends. rewrite Filter_app, Filter_notSeen_state. f_equal.
  rewrite (union_comm_L ∅). apply Filter_notSeen_more_seen.
Qed.

(** X18.  One frontend per name: the length of the result is the number
    of distinct names in the argument. *)
Theorem filterFrontends_length (instances : list ecsInstance) :
  List.length (filterFrontends instances)
  = size (list_to_set (Name <$> instances) : gset string).
Proof.
  unfold filterFrontends.
  rewrite <- (length_fmap Name (fst (Filter notSeen instances ∅))).
  rewrite <- (size_list_to_set (C:=gset string) (Name <$> fst (Filter notSeen instances ∅)))
    by apply Filter_notSeen_NoDup.
  f_equal. apply set_eq. intros n. rewrite !elem_of_list_to_set. split.
  - intros (y & -> & Hy)%list_elem_of_fmap. apply list_elem_of_fmap.
    exists y. split; [reflexivity|].
    exact (elem_of_sublist _ _ _ Hy (Filter_notSeen_sublist instances ∅)).
  - intros (y & -> & Hy)%list_elem_of_fmap.
    destruct (Filter_notSeen_names instances ∅ y Hy) as [H | H]; [|exact H].
    apply elem_of_empty in H. destruct H.
Qed.

(** ** The properties on the sample instances *)

Lemma typed_accessors_default_when_unset_web :
  let k := "traefik.frontend.priority" in
  label_unset Samples.web k
  /\ (forall d, getStringValue Samples.web k d = d)
  /\ (forall d, getBoolValue Samples.web k d = d)
  /\ (forall d, getIntValue 64 Samples.web k d = d)
  /\ (forall d, getInt64Value Samples.web k d = d)
  /\ getSliceString (fun _ _ => Some []) Samples.web k = None.
Proof.
  intros k.
  assert (H : label_unset Samples.web k) by (left; reflexivity).
  split; [exact H|].
  exact (typed_accessors_default_when_unset 64 (fun _ _ => Some []) Samples.web k H).
Defined.

Lemma typed_accessors_default_when_malformed_12x :
  let k := "traefik.backend.healthcheck.port" in
  (forall d, getBoolValue Samples.malformed k d = d)
  /\ (forall d, getIntValue 64 Samples.malformed k d = d)
  /\ (forall d, getInt64Value Samples.malformed k d = d).
Proof.
  intros k.
  assert (H : label_set Samples.malformed k "12x")
    by (split; [reflexivity | discriminate]).
  destruct (typed_accessors_default_when_malformed 64 Samples.malformed k "12x" H)
    as (Hbool & Hint & Hint64).
  split; [apply Hbool; apply (bool_decide_unpack _); vm_compute; exact I|].
  split; [apply Hint; [right|]; reflexivity | apply Hint64; reflexivity].
Defined.

Lemma first_accessors_use_first_instance_stickiness :
  hasStickinessLabel "traefik.backend.loadbalancer.stickiness"
    [Samples.web; Samples.sticky] = Ok false
  /\ getBoolValue Samples.sticky "traefik.backend.loadbalancer.stickiness" false = true.
Proof.
  split; [|reflexivity].
  destruct (first_accessors_use_first_instance 64
              "traefik.backend.loadbalancer.stickiness" Samples.web [Samples.sticky])
    as (_ & _ & _ & _ & H).
  apply H. left. reflexivity.
Defined.

Lemma getFrontendRule_default_my_service :
  getFrontendRule "traefik.frontend.rule" (fun s => s)
    {| Domain := "example.com" |} Samples.my_service
  = "Host:my-service.example.com".
Proof.
  assert (H : label_unset Samples.my_service "traefik.frontend.rule")
    by (left; reflexivity).
  destruct (getFrontendRule_default "traefik.frontend.rule" (fun s => s)
              {| Domain := "example.com" |} Samples.my_service H)
    as (_ & _ & Hexample).
  apply Hexample; reflexivity.
Defined.



Lemma getMaxConnAmount_default_overflow :
  getMaxConnAmount "traefik.backend.maxconn.amount" [Samples.maxconn_overflow]
  = Ok 9223372036854775807.
Proof.
  destruct (getMaxConnAmount_default "traefik.backend.maxconn.amount"
              Samples.maxconn_overflow []) as (H & E).
  - right. exists "9223372036854775808". split; reflexivity.
  - rewrite H, E. reflexivity.
Defined.

(** ** The further properties on the sample instances *)

Lemma typed_accessors_parsed_samples :
  getInt64Value Samples.only_amount "traefik.backend.maxconn.amount" MaxInt64 = 10
  /\ getIntValue 32 Samples.only_amount "traefik.backend.maxconn.amount" 0 = 10
  /\ getBoolValue Samples.sticky "traefik.backend.loadbalancer.stickiness" false = true
  /\ getBoolValue Samples.disabled "traefik.enable" true = false
  /\ getStringValue Samples.labelled_port "traefik.port" "" = "8080".
Proof.
  split.
  { destruct (typed_accessors_parsed 32 Samples.only_amount
                "traefik.backend.maxconn.amount") as (H & _).
    apply (H "10"); reflexivity. }
  split.
  { destruct (typed_accessors_parsed 32 Samples.only_amount
                "traefik.backend.maxconn.amount") as (_ & H & _).
    apply (H "10"); [reflexivity | left; reflexivity | reflexivity]. }
  split.
  { destruct (typed_accessors_parsed 64 Samples.sticky
                "traefik.backend.loadbalancer.stickiness") as (_ & _ & H & _).
    apply (H "true"); [reflexivity|].
    apply (bool_decide_unpack _); vm_compute; exact I. }
  split.
  { destruct (typed_accessors_parsed 64 Samples.disabled "traefik.enable")
      as (_ & _ & _ & H & _).
    apply (H "false"); [reflexivity|].
    apply (bool_decide_unpack _); vm_compute; exact I. }
  destruct (typed_accessors_parsed 64 Samples.labelled_port "traefik.port")
    as (_ & _ & _ & _ & H).
  apply (H "8080"); [reflexivity | discriminate].
Defined.

Lemma int_accessors_in_range_samples :
  - 2 ^ 63 <= getInt64Value Samples.maxconn_overflow "traefik.backend.maxconn.amount" 0
    <= 2 ^ 63 - 1
  /\ - 2 ^ (32 - 1) <= getIntValue 32 Samples.maxconn_overflow
                         "traefik.backend.maxconn.amount" 0
     <= 2 ^ (32 - 1) - 1.
Proof.
  destruct (int_accessors_in_range 32 Samples.maxconn_overflow
              "traefik.backend.maxconn.amount" 0) as (H64 & H32).
  split; [apply H64; lia | apply H32; [left; reflexivity | lia]].
Defined.

Lemma guarded_first_accessors_samples :
  let group := [Samples.amount_and_extractor; Samples.only_amount] in
  (forall d, exists v, getFuncFirstIntValue 64 "traefik.backend.healthcheck.port" d group = Ok v)
  /\ (exists n, getMaxConnAmount "traefik.backend.maxconn.amount" group = Ok n
                /\ - 2 ^ 63 <= n <= 2 ^ 63 - 1).
Proof.
  intros group.
  destruct (guarded_first_accessors 64 "traefik.backend.maxconn.amount"
              "traefik.backend.maxconn.extractorfunc" group) as (Hany & Hmax).
  split.
  - apply Hany. exists "traefik.backend.maxconn.amount". reflexivity.
  - apply Hmax. reflexivity.
Defined.

Lemma filterFrontends_one_service_web :
  filterFrontends [Samples.web; Samples.sticky] = [Samples.web].
Proof.
  apply filterFrontends_one_service.
  intros x Hx. apply list_elem_of_singleton in Hx. rewrite Hx. reflexivity.
Defined.

Lemma getFrontendRule_host_normalised_my_service :
  exists host,
    getFrontendRule "traefik.frontend.rule" (fun s => s)
      {| Domain := "example.com" |} Samples.my_service
    = "Host:" +:+ host +:+ "." +:+ "example.com"
    /\ String.length host = 10%nat
    /\ strings.all_bytes host_byte host = true.
Proof.
  apply (getFrontendRule_host_normalised "traefik.frontend.rule" (fun s => s)
           {| Domain := "example.com" |} Samples.my_service).
  - left. reflexivity.
  - reflexivity.
Defined.

Lemma getPort_reads_back_web :
  exists port, getPort "traefik.port" Samples.web = Ok port
               /\ port <> ""
               /\ strconv.ParseInt10 port 64 = Some 32768.
Proof.
  apply (getPort_reads_back "traefik.port" Samples.web {| HostPort := Some 32768 |} []).
  - left. reflexivity.
  - reflexivity.
  - reflexivity.
  - lia.
Defined.

Lemma stickiness_implies_load_balancer_sticky :
  hasLoadBalancerLabel "traefik.backend.loadbalancer.method"
    "traefik.backend.loadbalancer.sticky"
    "traefik.backend.loadbalancer.stickiness"
    "traefik.backend.loadbalancer.stickiness.cookieName"
    [Samples.sticky; Samples.web]
  = Ok true.
Proof.
  apply stickiness_implies_load_balancer. reflexivity.
Defined.

(** ** Further evaluations *)

Example hasMaxConnLabels_samples :
  let has := hasMaxConnLabels "traefik.backend.maxconn.amount"
               "traefik.backend.maxconn.extractorfunc" in
  has [Samples.amount_and_extractor; Samples.web] = Ok true
  /\ has [Samples.only_amount; Samples.amount_and_extractor] = Ok false
  /\ has [Samples.empty_extractor] = Ok false
  /\ has [] = Ok false.
Proof. repeat split. Qed.

Example filterFrontends_samples :
  filterFrontends
    [Samples.web; Samples.malformed; Samples.sticky; Samples.unroutable; Samples.only_amount]
  = [Samples.web; Samples.malformed; Samples.unroutable].
Proof. reflexivity. Qed.

Example ParseInt10_samples :
  strconv.ParseInt10 "-9223372036854775808" 64 = Some (-9223372036854775808)
  /\ strconv.ParseInt10 "9223372036854775807" 64 = Some 9223372036854775807
  /\ strconv.ParseInt10 "9223372036854775808" 64 = None
  /\ strconv.ParseInt10 "2147483648" 32 = None
  /\ strconv.ParseInt10 "+42" 64 = Some 42
  /\ strconv.ParseInt10 "12x" 64 = None
  /\ strconv.ParseInt10 "-" 64 = None
  /\ strconv.ParseInt10 "" 64 = None.
Proof. repeat split. Qed.

Example first_accessors_samples :
  getFuncFirstIntValue 64 "traefik.backend.healthcheck.port" 0 [] = Panic IndexOutOfRange
  /\ getFuncFirstIntValue 64 "traefik.backend.healthcheck.port" 0 [Samples.malformed] = Ok 0
  /\ getFuncFirstStringValue "traefik.backend.healthcheck.path" "" [] = Ok "".
Proof. repeat split. Qed.

Example getSticky_samples :
  let sticky := "traefik.backend.loadbalancer.sticky" in
  let stickiness := "traefik.backend.loadbalancer.stickiness" in
  getSticky sticky stickiness
    [Samples.instance "web" [(sticky, Some "true")] None []]
  = (["Deprecated configuration found: traefik.backend.loadbalancer.sticky. Please use traefik.backend.loadbalancer.stickiness."],
     Ok "true")
  /\ getSticky sticky stickiness [Samples.sticky] = ([], Ok "false")
  /\ getSticky sticky stickiness [] = ([], Ok "false").
Proof. repeat split. Qed.

Example isEnabled_samples :
  isEnabled "traefik.enable" Samples.disabled true = false
  /\ isEnabled "traefik.enable" Samples.web true = true
  /\ isEnabled "traefik.enable" Samples.web false = false.
Proof. repeat split. Qed.

Example filterFrontends_app_samples :
  filterFrontends ([Samples.web; Samples.malformed] ++ [Samples.sticky; Samples.unroutable])%list
  = [Samples.web; Samples.malformed; Samples.unroutable]
  /\ List.length (filterFrontends [Samples.web; Samples.sticky; Samples.unroutable]) = 2%nat.
Proof. split; reflexivity. Qed.
